(** * Musical-theater crew service: roster builder and HTTP facade

    A shallow embedding of [crew_definitions.py] (the roster builder) and
    [main.py] (the FastAPI facade), with the properties of the specification
    stated and proved over it.

    Python dictionaries are [gmap]s with string keys, lists are [list]s,
    exceptions are values of an error monad, and the side effects of the
    request handler (logging, clock reads, the call into the orchestration
    engine) are threaded through an explicit state with an event trace. *)

From stdpp Require Import gmap strings list fin_maps.

Set Warnings "-register-all".
Open Scope string_scope.

(* ===================================================================== *)
(** ** Python exceptions and the error monad                              *)
(* ===================================================================== *)

(** An exception object, as far as the program looks at it: its class and
    the text [str(e)] yields. *)
Record exception := Raised { exc_type : string; exc_str : string }.

(** [str(KeyError(k))] is the [repr] of the key. *)
Definition KeyError (key : string) : exception :=
  {| exc_type := "KeyError"; exc_str := "'" ++ key ++ "'" |}.

(** The outcome of a call: a value, or an exception of type [E]. *)
Inductive outcome (E A : Type) : Type :=
  | Return (a : A)
  | Raise (e : E).
Arguments Return {E A} a.
Arguments Raise {E A} e.

#[export] Instance outcome_ret {E} : MRet (outcome E) := λ A a, Return a.
#[export] Instance outcome_bind {E} : MBind (outcome E) := λ A B f m,
  match m with
  | Return a => f a
  | Raise e => Raise e
  end.

(** [d[k]]: subscripting a dictionary raises [KeyError] on a missing key. *)
Definition getitem {V} (d : gmap string V) (k : string)
    : outcome exception V :=
  match d !! k with
  | Some v => Return v
  | None => Raise (KeyError k)
  end.

(** [for x in l: s = body(s, x)], leaving the loop at the first exception. *)
Fixpoint for_each {E S A} (body : S → A → outcome E S) (l : list A) (s : S)
    : outcome E S :=
  match l with
  | [] => Return s
  | x :: l' => s' ← body s x; for_each body l' s'
  end.

(* ===================================================================== *)
(** ** crew_definitions.py                                                *)
(* ===================================================================== *)

Module CrewDefinitions.

(** The objects of the orchestration framework, as records of the keyword
    arguments the program passes to their constructors. *)
Record Agent := {
  role : string;
  goal : string;
  backstory : string;
  verbose : bool;
  allow_delegation : bool
}.

Record Task := {
  description : string;
  expected_output : string;
  agent : Agent
}.

Inductive Process := sequential | hierarchical.

(** [CrewAgentCallbacks()]: an object without arguments. *)
Inductive CrewAgentCallbacks := CrewAgentCallbacks_new.

Record Crew := {
  agents : list Agent;
  tasks : list Task;
  crew_verbose : Z;
  process : Process;
  callbacks : CrewAgentCallbacks
}.

#[export] Instance Agent_eq_dec : EqDecision Agent.
Proof. solve_decision. Defined.
#[export] Instance Task_eq_dec : EqDecision Task.
Proof. solve_decision. Defined.

(** [class MusicalTheaterCrew]: the role list and the per-role task
    templates set up by [__init__] (its two empty dictionaries [agents] and
    [tasks] are never read). *)
Record MusicalTheaterCrew := {
  roles : list string;
  task_templates : gmap string (list (string * string))
}.

Definition MusicalTheaterCrew_init : MusicalTheaterCrew := {|
  roles := [
    "Composer + Lyricist";
    "Book";
    "Director";
    "Choreographer";
    "Set/Visual";
    "Dramaturg";
    "Market/Producer"
  ];
  task_templates := list_to_map [
    ("Composer + Lyricist", [
       ("Compose new songs", "Sheet music and lyrics for all songs");
       ("Develop musical themes", "Musical motifs for characters and scenes");
       ("Create vocal arrangements", "Detailed vocal arrangements for ensemble")
     ]);
    ("Book", [
       ("Draft storyline", "Complete first draft of the book");
       ("Character development", "Detailed character backgrounds and arcs");
       ("Scene structure", "Scene-by-scene breakdown with transitions")
     ]);
    ("Director", [
       ("Review creative inputs", "Provide feedback on creative direction");
       ("Vision development", "Comprehensive production vision document");
       ("Staging concepts", "Initial staging plans for key scenes")
     ]);
    ("Choreographer", [
       ("Develop choreography", "Choreography plans for musical numbers");
       ("Movement patterns", "Character-specific movement guidelines");
       ("Dance arrangements", "Dance break arrangements for ensemble numbers")
     ]);
    ("Set/Visual", [
       ("Design set sketches", "Mood boards and initial sketches");
       ("Technical requirements", "Technical specifications for set pieces");
       ("Visual continuity", "Scene transition and visual flow plans")
     ]);
    ("Dramaturg", [
       ("Check continuity", "A list of suggested storyline adjustments");
       ("Historical research", "Period-specific reference materials");
       ("Theme analysis", "Analysis of major themes and motifs")
     ]);
    ("Market/Producer", [
       ("Analyze market trends", "Market analysis report");
       ("Budget planning", "Initial budget breakdown");
       ("Marketing strategy", "Marketing and promotion plan")
     ])
  ]
|}.

(** The dictionary literal local to [create_agent_for_role]. *)
Definition role_description_items : list (string * gmap string string) := [
  ("Composer + Lyricist", list_to_map [
     ("goal", "Create compelling musical numbers and lyrics that advance the story");
     ("backstory", "You are an experienced composer and lyricist with a deep understanding of musical theater conventions and the ability to create memorable melodies and meaningful lyrics.")
   ]);
  ("Book", list_to_map [
     ("goal", "Develop a coherent and engaging narrative structure");
     ("backstory", "You are a skilled playwright with experience in crafting compelling stories and developing rich characters for musical theater.")
   ]);
  ("Director", list_to_map [
     ("goal", "Unify the creative vision and guide the overall production");
     ("backstory", "You are a seasoned director with expertise in bringing together various theatrical elements into a cohesive whole.")
   ]);
  ("Choreographer", list_to_map [
     ("goal", "Create dynamic movement that enhances the storytelling");
     ("backstory", "You are an innovative choreographer who specializes in creating movement that serves both the story and the music.")
   ]);
  ("Set/Visual", list_to_map [
     ("goal", "Design compelling visual environments that support the narrative");
     ("backstory", "You are a creative designer with experience in creating immersive theatrical environments that enhance storytelling.")
   ]);
  ("Dramaturg", list_to_map [
     ("goal", "Ensure historical accuracy and narrative consistency");
     ("backstory", "You are a meticulous researcher and story expert who helps maintain the integrity of the production.")
   ]);
  ("Market/Producer", list_to_map [
     ("goal", "Develop effective marketing strategies and manage production resources");
     ("backstory", "You are an experienced producer with a strong understanding of theater marketing and production management.")
   ])
].

Definition role_descriptions : gmap string (gmap string string) :=
  list_to_map role_description_items.

(** The default handed to [role_descriptions.get]. *)
Definition fallback_role_info : gmap string string := list_to_map [
  ("goal", "Contribute to the overall success of the production");
  ("backstory", "You are a theater professional with expertise in your specific domain.")
].

Definition create_agent_for_role (role : string) : outcome exception Agent :=
  let role_info := default fallback_role_info (role_descriptions !! role) in
  goal ← getitem role_info "goal";
  backstory ← getitem role_info "backstory";
  Return {|
    role := role;
    goal := goal;
    backstory := backstory;
    verbose := true;
    allow_delegation := true
  |}.

Definition create_task_for_role (agent : Agent) (task_desc : string * string)
    : Task :=
  let '(description, expected_output) := task_desc in
  {|
    description := description;
    expected_output := expected_output;
    agent := agent
  |}.

(** The inner loop: one [tasks.append] per template of the role. *)
Definition append_role_tasks (agent : Agent)
    (role_tasks : list (string * string)) (tasks : list Task) : list Task :=
  fold_left
    (λ (tasks : list Task) task_desc,
       (tasks ++ [create_task_for_role agent task_desc])%list)
    role_tasks tasks.

(** The body of the outer loop, on the two accumulators. *)
Definition role_step (crew_manager : MusicalTheaterCrew)
    (acc : list Agent * list Task) (role : string)
    : outcome exception (list Agent * list Task) :=
  let '(agents, tasks) := acc in
  agent ← create_agent_for_role role;
  let agents := (agents ++ [agent])%list in
  let role_tasks := default [] (task_templates crew_manager !! role) in
  Return (agents, append_role_tasks agent role_tasks tasks).

Definition create_musical_theater_crew (production_name : string)
    : outcome exception Crew :=
  let crew_manager := MusicalTheaterCrew_init in
  '(agents, tasks) ← for_each (role_step crew_manager) (roles crew_manager) ([], []);
  Return {|
    agents := agents;
    tasks := tasks;
    crew_verbose := 2;
    process := sequential;
    callbacks := CrewAgentCallbacks_new
  |}.

End CrewDefinitions.

(* ===================================================================== *)
(** ** main.py                                                            *)
(* ===================================================================== *)

Module Main.
Import CrewDefinitions.

(** A decoded JSON document: the request body, and the values ([Any]) of
    the [additional_context] dictionary. *)
Inductive json :=
  | JNull
  | JBool (b : bool)
  | JNumber (literal : string)
  | JString (s : string)
  | JArray (items : list json)
  | JObject (members : gmap string json).

(** [class CrewRequest(BaseModel)] *)
Record CrewRequest := {
  production_name : string;
  additional_context : gmap string json
}.

(** [class CrewResponse(BaseModel)]; the duration is counted in ticks of
    the event loop's clock. *)
Record CrewResponse := {
  result : string;
  execution_time : Z
}.

(** Validation of a request body against [CrewRequest]:
    [production_name] is required ([Field(...)]) and of type [str],
    [additional_context] is a [Dict[str, Any]] that defaults to the empty
    dictionary; members the model does not declare are ignored. *)
Definition validate_CrewRequest (body : json) : option CrewRequest :=
  match body with
  | JObject members =>
      match members !! "production_name" with
      | Some (JString name) =>
          match members !! "additional_context" with
          | None =>
              Some {| production_name := name; additional_context := ∅ |}
          | Some (JObject context) =>
              Some {| production_name := name; additional_context := context |}
          | Some _ => None
          end
      | _ => None
      end
  | _ => None
  end.

(** [raise HTTPException(status_code=..., detail=...)] *)
Record HTTPException := {
  status_code : Z;
  detail : string
}.

(** What the client receives: the response model with status 200, the
    rendering of an [HTTPException], or the framework's 422 for a body that
    does not validate. *)
Inductive Response :=
  | JSONResponse (body : CrewResponse)
  | ErrorResponse (status_code : Z) (detail : string)
  | UnprocessableEntity.

(** What a request leaves behind, in order: the records passed to [logger],
    the calls into the roster builder and into the engine, and the clock
    readings. *)
Inductive Event :=
  | LogInfo (msg : string)
  | LogCompleted (execution_time : Z)
  | LogError (msg : string)
  | CreateCrew (production_name : string)
  | LoopTime (t : Z)
  | Kickoff (crew : Crew) (inputs : gmap string json).

(** The external collaborators of the handler: the state of the outside
    world, the event loop's clock, and [Crew.kickoff_async], which returns
    the engine's text or raises, and leaves the world in a later state. *)
Class Engine := {
  World : Type;
  loop_time : World → Z;
  kickoff_async :
    Crew → gmap string json → World → outcome exception string * World
}.

Section Facade.
Context `{Engine}.

Record State := {
  world : World;
  trace : list Event
}.

(** Computations of the handler: state passing with exceptions of type [E]. *)
Definition io (E A : Type) : Type := State → outcome E A * State.

#[export] Instance io_ret {E} : MRet (io E) := λ A a st, (Return a, st).
#[export] Instance io_bind {E} : MBind (io E) := λ A B f m st,
  match m st with
  | (Return a, st') => f a st'
  | (Raise e, st') => (Raise e, st')
  end.

Definition raise {E A} (e : E) : io E A := λ st, (Raise e, st).

Definition emit {E} (ev : Event) : io E unit := λ st,
  (Return (), {| world := world st; trace := trace st ++ [ev] |}).

(** [try: body / except Exception as e: handler(e)] *)
Definition try_except {E E' A} (body : io E A) (handler : E → io E' A)
    : io E' A := λ st,
  match body st with
  | (Return a, st') => (Return a, st')
  | (Raise e, st') => handler e st'
  end.

(** [asyncio.get_event_loop().time()] *)
Definition get_loop_time {E} : io E Z := λ st,
  let t := loop_time (world st) in
  (Return t, {| world := world st; trace := trace st ++ [LoopTime t] |}).

(** [await crew.kickoff_async(inputs=inputs)] *)
Definition await_kickoff_async (crew : Crew) (inputs : gmap string json)
    : io exception string := λ st,
  let '(r, w) := kickoff_async crew inputs (world st) in
  (r, {| world := w; trace := trace st ++ [Kickoff crew inputs] |}).

(** A call of the roster builder bound to the name
    [create_musical_theater_crew] in the module. *)
Definition call_create_crew
    (create_crew : string → outcome exception Crew) (production_name : string)
    : io exception Crew := λ st,
  (create_crew production_name,
   {| world := world st; trace := trace st ++ [CreateCrew production_name] |}).

(** [os.getenv(key)] is truthy: the variable is set and not empty. *)
Definition getenv_truthy (environ : gmap string string) (key : string) : bool :=
  match environ !! key with
  | Some value => bool_decide (value ≠ "")
  | None => false
  end.

(** [', '.join(keys)] *)
Fixpoint join (sep : string) (keys : list string) : string :=
  match keys with
  | [] => ""
  | [key] => key
  | key :: rest => key ++ sep ++ join sep rest
  end.

Definition required_keys : list string := ["OPENAI_API_KEY"].

Definition verify_api_keys (environ : gmap string string)
    : io HTTPException bool :=
  let missing_keys :=
    filter (λ key, negb (getenv_truthy environ key) = true) required_keys in
  match missing_keys with
  | _ :: _ =>
      let error_msg :=
        "Missing required environment variables: " ++ join ", " missing_keys in
      emit (LogError error_msg);;
      raise {| status_code := 500; detail := error_msg |}
  | [] => mret true
  end.

(** [{"production_name": name, **additional_context}]: the entries of the
    unpacked dictionary are written after the literal one and replace it
    on an equal key. *)
Definition make_inputs (request : CrewRequest) : gmap string json :=
  additional_context request
    ∪ {["production_name" := JString (production_name request)]}.

(** The handler, over the roster builder it calls. *)
Definition trigger_crew_with
    (create_crew : string → outcome exception Crew) (request : CrewRequest)
    : io HTTPException CrewResponse :=
  try_except
    (emit (LogInfo ("Received request for production: "
                      ++ production_name request));;
     crew ← call_create_crew create_crew (production_name request);
     start_time ← get_loop_time;
     let inputs := make_inputs request in
     result ← await_kickoff_async crew inputs;
     end_time ← get_loop_time;
     let execution_time := (end_time - start_time)%Z in
     emit (LogCompleted execution_time);;
     mret {| result := result; execution_time := execution_time |})
    (λ e,
       emit (LogError ("Error during CrewAI execution: " ++ exc_str e));;
       raise {|
         status_code := 500;
         detail := "An error occurred during CrewAI execution: " ++ exc_str e
       |}).

Definition trigger_crew : CrewRequest → io HTTPException CrewResponse :=
  trigger_crew_with create_musical_theater_crew.

(** [POST /trigger-crew] as the framework serves it: the dependency
    [verify_api_keys] is resolved first, then the body is validated, then
    the handler runs; an [HTTPException] is rendered with its status and
    detail. *)
Definition post_trigger_crew_with
    (create_crew : string → outcome exception Crew)
    (environ : gmap string string) (body : json) (st : State)
    : Response * State :=
  match verify_api_keys environ st with
  | (Raise e, st') => (ErrorResponse (status_code e) (detail e), st')
  | (Return api_keys, st') =>
      match validate_CrewRequest body with
      | None => (UnprocessableEntity, st')
      | Some request =>
          match trigger_crew_with create_crew request st' with
          | (Return response, st'') => (JSONResponse response, st'')
          | (Raise e, st'') => (ErrorResponse (status_code e) (detail e), st'')
          end
      end
  end.

Definition post_trigger_crew
    : gmap string string → json → State → Response * State :=
  post_trigger_crew_with create_musical_theater_crew.

End Facade.

(** A stub engine whose clock is the world itself: every run takes five
    ticks and returns "OK", except that a crew without agents makes it
    raise. *)
Definition stub_engine : Engine := {|
  World := Z;
  loop_time := λ w, w;
  kickoff_async := λ crew inputs w,
    match agents crew with
    | [] => (Raise {| exc_type := "ValueError"; exc_str := "no agents" |},
             (w + 1)%Z)
    | _ => (Return "OK", (w + 5)%Z)
    end
|}.

(** A fresh state of the stub engine, an environment with the key set, and
    the request body of the specification's example. *)
Definition st0 : @State stub_engine :=
  @Build_State stub_engine 0%Z [].

Definition configured : gmap string string :=
  {["OPENAI_API_KEY" := "sk-test"]}.

Definition test_show : json :=
  JObject {["production_name" := JString "Test Show"]}.

(** A request whose context carries its own ["production_name"], and one
    whose name is the empty string. *)
Definition override_body : json :=
  JObject (<["additional_context" :=
               JObject {["production_name" := JString "Evita"]}]>
             {["production_name" := JString "Cats"]}).

Definition empty_name_body : json :=
  JObject {["production_name" := JString ""]}.

End Main.

(* ===================================================================== *)
(** ** Vocabulary of the statements                                       *)
(* ===================================================================== *)

Import CrewDefinitions Main.

(** The descriptor the builder makes for a role: the entry of the table,
    or the fallback pair, with both flags set. *)
Definition descriptor (r : string) : Agent :=
  let role_info := default fallback_role_info (role_descriptions !! r) in
  {|
    role := r;
    goal := default "" (role_info !! "goal");
    backstory := default "" (role_info !! "backstory");
    verbose := true;
    allow_delegation := true
  |}.

(** The templates declared for a role, as the builder reads them. *)
Definition templates_of (m : MusicalTheaterCrew) (r : string)
    : list (string * string) :=
  default [] (task_templates m !! r).

(** The tasks of a crew that are bound to an agent of role [r]. *)
Definition tasks_of_role (crew : Crew) (r : string) : list Task :=
  filter (λ t, role (agent t) = r) (tasks crew).

(** The tasks the builder makes for a role: its templates, bound to its
    descriptor. *)
Definition role_group (m : MusicalTheaterCrew) (r : string) : list Task :=
  create_task_for_role (descriptor r) <$> templates_of m r.

(** The crew the builder returns, in closed form. *)
Definition the_crew : Crew :=
  let m := MusicalTheaterCrew_init in
  {|
    agents := descriptor <$> roles m;
    tasks := concat (role_group m <$> roles m);
    crew_verbose := 2;
    process := sequential;
    callbacks := CrewAgentCallbacks_new
  |}.

(** [sub] occurs in [s]. *)
Definition contains (s sub : string) : Prop :=
  ∃ before after, s = before ++ sub ++ after.

(** The detail strings of the two kinds of error response. *)
Definition missing_key_detail : string :=
  "Missing required environment variables: OPENAI_API_KEY".

Definition execution_error_detail (e : exception) : string :=
  "An error occurred during CrewAI execution: " ++ exc_str e.

Definition is_Kickoff (ev : Event) : bool :=
  match ev with Kickoff _ _ => true | _ => false end.

Definition is_CreateCrew (ev : Event) : bool :=
  match ev with CreateCrew _ => true | _ => false end.

(** The events a step added to the trace: those of [st'] after the ones
    [st] already had. *)
Definition new_events `{Engine} (st st' : State) : list Event :=
  drop (length (trace st)) (trace st').

(* ===================================================================== *)
(** ** The roster builder                                                 *)
(* ===================================================================== *)

Section Roster.

Lemma append_role_tasks_app (a : Agent) (role_tasks : list (string * string))
    (tasks : list Task) :
  append_role_tasks a role_tasks tasks
  = (tasks ++ (create_task_for_role a <$> role_tasks))%list.
Proof.
  unfold append_role_tasks.
  revert tasks. induction role_tasks as [|td tds IH]; intros tasks; simpl.
  - by rewrite app_nil_r.
  - rewrite IH, <- app_assoc. reflexivity.
Qed.

(** Every entry of the descriptor table carries both keys. *)
Lemma role_description_items_complete :
  Forall (λ item, is_Some (item.2 !! "goal") ∧ is_Some (item.2 !! "backstory"))
         role_description_items.
Proof.
  unfold role_description_items.
  repeat (apply Forall_cons; split;
          [split; vm_compute; eexists; reflexivity|]).
  apply Forall_nil; exact I.
Qed.

Lemma role_info_complete (r : string) :
  let role_info := default fallback_role_info (role_descriptions !! r) in
  is_Some (role_info !! "goal") ∧ is_Some (role_info !! "backstory").
Proof.
  simpl. destruct (role_descriptions !! r) as [info|] eqn:Hr; simpl.
  - apply elem_of_list_to_map_2 in Hr.
    pose proof role_description_items_complete as Hall.
    rewrite Forall_forall in Hall. exact (Hall (r, info) Hr).
  - split; vm_compute; eexists; reflexivity.
Qed.

(** The agent constructor never raises, whatever the role. *)
Lemma create_agent_for_role_returns (r : string) :
  create_agent_for_role r = Return (descriptor r).
Proof.
  unfold create_agent_for_role, descriptor.
  destruct (role_info_complete r) as [[g Hg] [b Hb]]. simpl in Hg, Hb.
  unfold getitem. rewrite Hg, Hb. reflexivity.
Qed.

(** The outer loop, for any role list and template table. *)
Lemma for_each_role_step (m : MusicalTheaterCrew) (rs : list string)
    (ags : list Agent) (tks : list Task) :
  for_each (role_step m) rs (ags, tks)
  = Return
      ((ags ++ (descriptor <$> rs))%list,
       (tks ++ concat (role_group m <$> rs))%list).
Proof.
  revert ags tks. induction rs as [|r rs IH]; intros ags tks; simpl.
  - by rewrite !app_nil_r.
  - rewrite create_agent_for_role_returns. simpl.
    change (for_each (role_step m) rs
              ((ags ++ [descriptor r])%list,
               append_role_tasks (descriptor r) (templates_of m r) tks)
            = Return
                ((ags ++ descriptor r :: (descriptor <$> rs))%list,
                 (tks ++ (role_group m r
                          ++ concat (role_group m <$> rs)))%list)).
    rewrite IH, append_role_tasks_app, <- !app_assoc. reflexivity.
Qed.

Lemma create_musical_theater_crew_returns (production_name : string) :
  create_musical_theater_crew production_name = Return the_crew.
Proof.
  unfold create_musical_theater_crew.
  rewrite for_each_role_step. reflexivity.
Qed.

(** Tasks are bound to the agent they were created for. *)
Lemma agent_create_task_for_role (a : Agent) (td : string * string) :
  agent (create_task_for_role a td) = a.
Proof. by destruct td. Qed.

Lemma filter_role_group_eq (m : MusicalTheaterCrew) (r : string) :
  filter (λ t, role (agent t) = r) (role_group m r) = role_group m r.
Proof.
  unfold role_group. induction (templates_of m r) as [|td tds IH]; [done|].
  rewrite fmap_cons, filter_cons_True, IH; [done|].
  by rewrite agent_create_task_for_role.
Qed.

Lemma filter_role_group_ne (m : MusicalTheaterCrew) (r r' : string) :
  r' ≠ r → filter (λ t, role (agent t) = r) (role_group m r') = [].
Proof.
  intros Hne. unfold role_group.
  induction (templates_of m r') as [|td tds IH]; [done|].
  rewrite fmap_cons, filter_cons_False, IH; [done|].
  by rewrite agent_create_task_for_role.
Qed.

Lemma filter_groups_notin (m : MusicalTheaterCrew) (r : string)
    (rs : list string) :
  r ∉ rs →
  filter (λ t, role (agent t) = r) (concat (role_group m <$> rs)) = [].
Proof.
  induction rs as [|r' rs IH]; intros Hnotin; [done|].
  rewrite fmap_cons, concat_cons, filter_app.
  apply not_elem_of_cons in Hnotin as [Hne Hnotin].
  rewrite filter_role_group_ne by done. by rewrite IH.
Qed.

(** With pairwise distinct roles, selecting the tasks by the role of their
    agent gives back the group made for that role. *)
Lemma filter_groups_in (m : MusicalTheaterCrew) (r : string)
    (rs : list string) :
  NoDup rs → r ∈ rs →
  filter (λ t, role (agent t) = r) (concat (role_group m <$> rs))
  = role_group m r.
Proof.
  induction rs as [|r' rs IH]; intros Hnd Hin.
  - by apply elem_of_nil in Hin.
  - apply NoDup_cons in Hnd as [Hnotin Hnd].
    rewrite fmap_cons, concat_cons, filter_app.
    destruct (decide (r' = r)) as [->|Hne].
    + rewrite filter_role_group_eq, filter_groups_notin by done.
      by rewrite app_nil_r.
    + rewrite filter_role_group_ne by done.
      apply elem_of_cons in Hin as [Heq|Hin]; [congruence|].
      by rewrite IH.
Qed.

(** A task keeps the template it was created from. *)
Lemma template_create_task_for_role (a : Agent) (td : string * string) :
  (description (create_task_for_role a td),
   expected_output (create_task_for_role a td)) = td.
Proof. by destruct td. Qed.

Lemma role_group_agents (m : MusicalTheaterCrew) (r : string) :
  Forall (λ t, agent t = descriptor r) (role_group m r).
Proof.
  unfold role_group. induction (templates_of m r) as [|td tds IH]; simpl.
  - apply Forall_nil; exact I.
  - apply Forall_cons; split; [apply agent_create_task_for_role | exact IH].
Qed.

Lemma role_group_templates (m : MusicalTheaterCrew) (r : string) :
  (λ t, (description t, expected_output t)) <$> role_group m r
  = templates_of m r.
Proof.
  unfold role_group. induction (templates_of m r) as [|td tds IH]; [done|].
  rewrite !fmap_cons, IH, template_create_task_for_role. reflexivity.
Qed.

(** Every task of the groups is bound to one of the descriptors. *)
Lemma groups_agents_in (m : MusicalTheaterCrew) (rs : list string) :
  Forall (λ t, agent t ∈ descriptor <$> rs) (concat (role_group m <$> rs)).
Proof.
  induction rs as [|r rs IH]; [apply Forall_nil; exact I|].
  rewrite !fmap_cons, concat_cons. apply Forall_app. split.
  - eapply Forall_impl; [apply role_group_agents|].
    intros t ->. apply list_elem_of_here.
  - eapply Forall_impl; [exact IH|].
    intros t Ht. by apply list_elem_of_further.
Qed.

(** The groups, read as (role, description, expected output), are the
    template table read along the role list. *)
Lemma groups_triples (m : MusicalTheaterCrew) (rs : list string) :
  (λ t, (role (agent t), description t, expected_output t))
    <$> concat (role_group m <$> rs)
  = concat ((λ r, (λ td, (r, td.1, td.2)) <$> templates_of m r) <$> rs).
Proof.
  induction rs as [|r rs IH]; [done|].
  rewrite !fmap_cons, !concat_cons, fmap_app, IH. f_equal.
  unfold role_group. induction (templates_of m r) as [|td tds IHt]; [done|].
  rewrite !fmap_cons, IHt, agent_create_task_for_role.
  by destruct td.
Qed.

Lemma roles_NoDup : NoDup (roles MusicalTheaterCrew_init).
Proof. apply (bool_decide_unpack _). vm_compute. exact I. Qed.

End Roster.

Section RosterClaims.

Lemma filter_descriptors_notin (r : string) (rs : list string) :
  r ∉ rs → filter (λ a, role a = r) (descriptor <$> rs) = [].
Proof.
  induction rs as [|r' rs IH]; intros Hnotin; [done|].
  apply not_elem_of_cons in Hnotin as [Hne Hnotin].
  rewrite fmap_cons, filter_cons_False by (simpl; congruence). auto.
Qed.

(** With pairwise distinct roles, exactly one descriptor carries a role. *)
Lemma filter_descriptors_in (r : string) (rs : list string) :
  NoDup rs → r ∈ rs →
  filter (λ a, role a = r) (descriptor <$> rs) = [descriptor r].
Proof.
  induction rs as [|r' rs IH]; intros Hnd Hin.
  - by apply elem_of_nil in Hin.
  - apply NoDup_cons in Hnd as [Hnotin Hnd]. rewrite fmap_cons.
    destruct (decide (r' = r)) as [->|Hne].
    + rewrite filter_cons_True by done.
      by rewrite filter_descriptors_notin.
    + rewrite filter_cons_False by done.
      apply elem_of_cons in Hin as [Heq|Hin]; [congruence|]. auto.
Qed.

Lemma role_descriptors (rs : list string) : role <$> (descriptor <$> rs) = rs.
Proof. induction rs as [|r rs IH]; [done|]. rewrite !fmap_cons, IH. done. Qed.

(** The keys of the descriptor table are the seven roles. *)
Lemma role_descriptions_None (r : string) :
  role_descriptions !! r = None ↔ r ∉ roles MusicalTheaterCrew_init.
Proof.
  unfold role_descriptions. rewrite <- not_elem_of_list_to_map. reflexivity.
Qed.

Lemma the_crew_agents :
  agents the_crew = descriptor <$> roles MusicalTheaterCrew_init.
Proof. reflexivity. Qed.

Lemma the_crew_tasks :
  tasks the_crew
  = concat (role_group MusicalTheaterCrew_init <$> roles MusicalTheaterCrew_init).
Proof. reflexivity. Qed.

(** C1: for every production name the roster builder returns a crew with
    exactly one agent descriptor per role of the fixed list of seven
    roles, in the declared order of the roles. *)
Theorem roster_one_descriptor_per_role (production_name : string) :
  ∃ crew,
    create_musical_theater_crew production_name = Return crew ∧
    role <$> agents crew = roles MusicalTheaterCrew_init ∧
    roles MusicalTheaterCrew_init =
      ["Composer + Lyricist"; "Book"; "Director"; "Choreographer";
       "Set/Visual"; "Dramaturg"; "Market/Producer"] ∧
    length (agents crew) = 7 ∧
    ∀ r, r ∈ roles MusicalTheaterCrew_init →
      ∃ a, filter (λ a, role a = r) (agents crew) = [a].
Proof.
  exists the_crew. split; [apply create_musical_theater_crew_returns|].
  rewrite the_crew_agents. split; [apply role_descriptors|].
  split; [reflexivity|]. split; [reflexivity|].
  intros r Hr. exists (descriptor r).
  apply filter_descriptors_in; [apply roles_NoDup | exact Hr].
Qed.

(** C2: for every production name, the task sequence of the crew is the
    concatenation, in role order, of one group per role.  The group of a
    role with N declared templates has exactly N tasks; every task of the
    group has as its agent the one descriptor of that role in the crew's
    agent list; and the descriptions and expected outputs of the group,
    read in order, are the declared templates of the role in their
    declared order.  Every role has 3 templates, so there are 21 tasks. *)
Theorem roster_tasks_per_role (production_name : string) :
  let m := MusicalTheaterCrew_init in
  ∃ crew,
    create_musical_theater_crew production_name = Return crew ∧
    tasks crew = concat (tasks_of_role crew <$> roles m) ∧
    (∀ i r, roles m !! i = Some r →
       ∃ a, agents crew !! i = Some a ∧ role a = r ∧
            tasks_of_role crew r
              = create_task_for_role a <$> templates_of m r ∧
            length (tasks_of_role crew r) = length (templates_of m r) ∧
            Forall (λ t, agent t = a) (tasks_of_role crew r) ∧
            (λ t, (description t, expected_output t))
              <$> tasks_of_role crew r
              = templates_of m r) ∧
    Forall (λ t, agent t ∈ agents crew) (tasks crew) ∧
    (λ t, (role (agent t), description t, expected_output t)) <$> tasks crew
      = concat ((λ r, (λ td, (r, td.1, td.2)) <$> templates_of m r)
                  <$> roles m) ∧
    (∀ r, r ∈ roles m → length (templates_of m r) = 3) ∧
    length (tasks crew) = 21.
Proof.
  intros m. exists the_crew.
  split; [apply create_musical_theater_crew_returns|].
  assert (Hgroup : ∀ r, r ∈ roles m → tasks_of_role the_crew r = role_group m r).
  { intros r Hr. unfold tasks_of_role. rewrite the_crew_tasks.
    apply filter_groups_in; [apply roles_NoDup | exact Hr]. }
  split; [|split; [|split; [|split; [|split]]]].
  - rewrite the_crew_tasks. apply (f_equal (@concat Task)).
    apply list_fmap_ext. intros i r Hi. symmetry. apply Hgroup.
    eapply list_elem_of_lookup_2; exact Hi.
  - intros i r Hi. exists (descriptor r).
    assert (Hr : r ∈ roles m) by (eapply list_elem_of_lookup_2; exact Hi).
    split; [|split; [done|]].
    + rewrite the_crew_agents, list_lookup_fmap.
      fold m. rewrite Hi. done.
    + rewrite Hgroup by done.
      split; [done|]. split; [unfold role_group; apply length_fmap|].
      split; [apply role_group_agents | apply role_group_templates].
  - rewrite the_crew_tasks, the_crew_agents. apply groups_agents_in.
  - rewrite the_crew_tasks. apply groups_triples.
  - intros r Hr. subst m.
    repeat (apply elem_of_cons in Hr as [->|Hr]; [vm_compute; reflexivity|]).
    by apply elem_of_nil in Hr.
  - vm_compute. reflexivity.
Qed.

(** C6: the builder is a function of nothing but its static tables: any
    two production names give the same outcome, a crew with the same
    agents and the same tasks (the extra context of a request is not an
    argument of the builder at all). *)
Theorem roster_independent_of_input (name1 name2 : string) :
  create_musical_theater_crew name1 = create_musical_theater_crew name2 ∧
  ∃ crew1 crew2,
    create_musical_theater_crew name1 = Return crew1 ∧
    create_musical_theater_crew name2 = Return crew2 ∧
    agents crew1 = agents crew2 ∧ tasks crew1 = tasks crew2.
Proof.
  rewrite !create_musical_theater_crew_returns.
  split; [reflexivity|]. exists the_crew, the_crew. done.
Qed.

(** C8: for a role that is not a key of the descriptor table,
    [create_agent_for_role] does not raise: it returns the agent with the
    generic goal and backstory; and whatever the role, known or not, the
    agent is verbose and may delegate. *)
Theorem unknown_role_gets_fallback (r : string) :
  role_descriptions !! r = None →
  create_agent_for_role r = Return {|
    role := r;
    goal := "Contribute to the overall success of the production";
    backstory :=
      "You are a theater professional with expertise in your specific domain.";
    verbose := true;
    allow_delegation := true
  |} ∧
  ∀ r' a, create_agent_for_role r' = Return a →
    verbose a = true ∧ allow_delegation a = true.
Proof.
  intros Hr. split.
  - unfold create_agent_for_role. rewrite Hr. reflexivity.
  - intros r' a. rewrite create_agent_for_role_returns.
    intros [= <-]. done.
Qed.

Lemma unknown_role_gets_fallback_witness :
  role_descriptions !! "Stage Manager" = None ∧
  ∃ a, create_agent_for_role "Stage Manager" = Return a ∧
       goal a = "Contribute to the overall success of the production".
Proof.
  assert (Hnone : role_descriptions !! "Stage Manager" = None)
    by (vm_compute; reflexivity).
  split; [exact Hnone|].
  destruct (unknown_role_gets_fallback "Stage Manager" Hnone) as [Hagent _].
  eexists. split; [exact Hagent | reflexivity].
Defined.

End RosterClaims.

(* ===================================================================== *)
(** ** The HTTP facade                                                    *)
(* ===================================================================== *)

Section FacadeSteps.
Context `{Engine}.

Lemma contains_suffix (before sub : string) : contains (before ++ sub) sub.
Proof.
  exists before, "". f_equal.
  induction sub as [|c sub IH]; [reflexivity|].
  change (String c sub = String c (sub ++ "")). congruence.
Qed.

Lemma new_events_app (st st' : State) (evs : list Event) :
  trace st' = (trace st ++ evs)%list → new_events st st' = evs.
Proof. unfold new_events. intros ->. apply drop_app_length. Qed.

Lemma verify_api_keys_missing (environ : gmap string string) (st : State) :
  getenv_truthy environ "OPENAI_API_KEY" = false →
  verify_api_keys environ st
  = (Raise {| status_code := 500; detail := missing_key_detail |},
     {| world := world st;
        trace := trace st ++ [LogError missing_key_detail] |}).
Proof.
  intros Hkey. unfold verify_api_keys, required_keys.
  rewrite filter_cons_True by (rewrite Hkey; reflexivity).
  rewrite filter_nil. reflexivity.
Qed.

Lemma verify_api_keys_present (environ : gmap string string) (st : State) :
  getenv_truthy environ "OPENAI_API_KEY" = true →
  verify_api_keys environ st = (Return true, st).
Proof.
  intros Hkey. unfold verify_api_keys, required_keys.
  rewrite filter_cons_False by (rewrite Hkey; simpl; congruence).
  rewrite filter_nil. reflexivity.
Qed.

(** The handler when the roster builder raises. *)
Lemma trigger_crew_with_builder_raises
    (create_crew : string → outcome exception Crew) (request : CrewRequest)
    (st : State) (e : exception) :
  create_crew (production_name request) = Raise e →
  trigger_crew_with create_crew request st
  = (Raise {| status_code := 500; detail := execution_error_detail e |},
     {| world := world st;
        trace := trace st ++ [
          LogInfo ("Received request for production: "
                     ++ production_name request);
          CreateCrew (production_name request);
          LogError ("Error during CrewAI execution: " ++ exc_str e)] |}).
Proof.
  intros Hbuild.
  unfold trigger_crew_with, try_except, call_create_crew, emit, raise,
    mbind, io_bind; simpl.
  rewrite Hbuild; simpl. rewrite <- !app_assoc. reflexivity.
Qed.

(** The handler when the engine raises. *)
Lemma trigger_crew_with_engine_raises
    (create_crew : string → outcome exception Crew) (request : CrewRequest)
    (st : State) (crew : Crew) (e : exception) (w' : World) :
  create_crew (production_name request) = Return crew →
  kickoff_async crew (make_inputs request) (world st) = (Raise e, w') →
  trigger_crew_with create_crew request st
  = (Raise {| status_code := 500; detail := execution_error_detail e |},
     {| world := w';
        trace := trace st ++ [
          LogInfo ("Received request for production: "
                     ++ production_name request);
          CreateCrew (production_name request);
          LoopTime (loop_time (world st));
          Kickoff crew (make_inputs request);
          LogError ("Error during CrewAI execution: " ++ exc_str e)] |}).
Proof.
  intros Hbuild Hrun.
  unfold trigger_crew_with, try_except, call_create_crew, get_loop_time,
    await_kickoff_async, emit, raise, mbind, io_bind; simpl.
  rewrite Hbuild; simpl. rewrite Hrun; simpl.
  rewrite <- !app_assoc. reflexivity.
Qed.

(** The handler when the engine returns. *)
Lemma trigger_crew_with_engine_returns
    (create_crew : string → outcome exception Crew) (request : CrewRequest)
    (st : State) (crew : Crew) (out : string) (w' : World) :
  create_crew (production_name request) = Return crew →
  kickoff_async crew (make_inputs request) (world st) = (Return out, w') →
  trigger_crew_with create_crew request st
  = (Return {| result := out;
               execution_time := loop_time w' - loop_time (world st) |},
     {| world := w';
        trace := trace st ++ [
          LogInfo ("Received request for production: "
                     ++ production_name request);
          CreateCrew (production_name request);
          LoopTime (loop_time (world st));
          Kickoff crew (make_inputs request);
          LoopTime (loop_time w');
          LogCompleted (loop_time w' - loop_time (world st))] |}).
Proof.
  intros Hbuild Hrun.
  unfold trigger_crew_with, try_except, call_create_crew, get_loop_time,
    await_kickoff_async, emit, raise, mbind, io_bind, mret, io_ret; simpl.
  rewrite Hbuild; simpl. rewrite Hrun; simpl.
  rewrite <- !app_assoc. reflexivity.
Qed.

End FacadeSteps.

Section FacadeClaims.
Context `{Engine}.

Lemma getenv_truthy_unset (environ : gmap string string) (key : string) :
  environ !! key = None → getenv_truthy environ key = false.
Proof. unfold getenv_truthy. by intros ->. Qed.

Lemma getenv_truthy_empty (environ : gmap string string) (key : string) :
  environ !! key = Some "" → getenv_truthy environ key = false.
Proof. unfold getenv_truthy. by intros ->. Qed.

(** C3: when [OPENAI_API_KEY] is absent from the environment, every
    [POST /trigger-crew], whatever its body, is answered with status 500
    and a detail that names the key; the request adds one error record to
    the log and nothing else: the roster builder and the engine are not
    called. *)
Theorem missing_key_fails_before_roster
    (environ : gmap string string) (body : json) (st : State) :
  environ !! "OPENAI_API_KEY" = None →
  ∃ st',
    post_trigger_crew environ body st
      = (ErrorResponse 500 missing_key_detail, st') ∧
    contains missing_key_detail "OPENAI_API_KEY" ∧
    world st' = world st ∧
    new_events st st' = [LogError missing_key_detail] ∧
    filter is_CreateCrew (new_events st st') = [] ∧
    filter is_Kickoff (new_events st st') = [].
Proof.
  intros Hunset. apply getenv_truthy_unset in Hunset.
  eexists. split.
  - unfold post_trigger_crew, post_trigger_crew_with.
    rewrite verify_api_keys_missing by done. reflexivity.
  - split.
    { exact (contains_suffix "Missing required environment variables: "
                             "OPENAI_API_KEY"). }
    split; [reflexivity|].
    rewrite (new_events_app st _ [LogError missing_key_detail]) by reflexivity.
    done.
Qed.

(** C10: a variable that is set to the empty string counts as missing:
    [verify_api_keys] raises the same 500 error, naming the key, as it
    does when the variable is unset, and so the endpoint answers every
    request the same way in both environments. *)
Theorem empty_key_treated_as_absent
    (environ : gmap string string) (st : State) :
  environ !! "OPENAI_API_KEY" = Some "" →
  verify_api_keys environ st
    = verify_api_keys (delete "OPENAI_API_KEY" environ) st ∧
  (verify_api_keys environ st).1
    = Raise {| status_code := 500; detail := missing_key_detail |} ∧
  contains missing_key_detail "OPENAI_API_KEY" ∧
  ∀ body,
    post_trigger_crew environ body st
    = post_trigger_crew (delete "OPENAI_API_KEY" environ) body st.
Proof.
  intros Hempty. apply getenv_truthy_empty in Hempty.
  assert (Hdel : getenv_truthy (delete "OPENAI_API_KEY" environ)
                   "OPENAI_API_KEY" = false).
  { apply getenv_truthy_unset, lookup_delete_eq. }
  split; [|split; [|split]].
  - by rewrite !verify_api_keys_missing.
  - by rewrite verify_api_keys_missing.
  - exact (contains_suffix "Missing required environment variables: "
                           "OPENAI_API_KEY").
  - intros body. unfold post_trigger_crew, post_trigger_crew_with.
    by rewrite !verify_api_keys_missing.
Qed.

(** C4: with the key configured and a valid request, an exception raised
    by the roster builder or by the engine run is caught by the handler:
    the response is a 500 whose detail ends with the text of the
    exception; the builder was called once and the engine at most once
    (no retry), and no response body is produced. *)
Theorem execution_error_surfaces_as_500
    (create_crew : string → outcome exception Crew)
    (environ : gmap string string) (body : json) (request : CrewRequest)
    (st : State) (e : exception) :
  getenv_truthy environ "OPENAI_API_KEY" = true →
  validate_CrewRequest body = Some request →
  (create_crew (production_name request) = Raise e
   ∨ ∃ crew,
       create_crew (production_name request) = Return crew ∧
       (kickoff_async crew (make_inputs request) (world st)).1 = Raise e) →
  ∃ st',
    post_trigger_crew_with create_crew environ body st
      = (ErrorResponse 500 (execution_error_detail e), st') ∧
    contains (execution_error_detail e) (exc_str e) ∧
    length (filter is_CreateCrew (new_events st st')) = 1 ∧
    (length (filter is_Kickoff (new_events st st')) ≤ 1)%nat ∧
    LogError ("Error during CrewAI execution: " ++ exc_str e)
      ∈ new_events st st'.
Proof.
  intros Hkey Hvalid Hraise.
  unfold post_trigger_crew_with.
  rewrite verify_api_keys_present, Hvalid by done.
  assert (Hcontains : contains (execution_error_detail e) (exc_str e))
    by apply contains_suffix.
  destruct Hraise as [Hbuild | (crew & Hbuild & Hrun)].
  - rewrite (trigger_crew_with_builder_raises _ _ _ e) by done.
    eexists. split; [reflexivity|]. split; [exact Hcontains|].
    erewrite new_events_app by reflexivity.
    split; [done|]. split; [simpl; lia|]. set_solver.
  - destruct (kickoff_async crew (make_inputs request) (world st))
      as [r w'] eqn:Hk. simpl in Hrun. subst r.
    rewrite (trigger_crew_with_engine_raises _ _ _ crew e w') by done.
    eexists. split; [reflexivity|]. split; [exact Hcontains|].
    erewrite new_events_app by reflexivity.
    split; [done|]. split; [simpl; lia|]. set_solver.
Qed.

(** C7: with the key configured, a valid request and an engine run that
    returns, the response carries the engine's output as [result] and, as
    [execution_time], the difference of the two clock readings taken
    immediately before and after the engine call; it is not negative as
    long as the clock did not go backwards during the run. *)
Theorem successful_run_response
    (environ : gmap string string) (body : json) (request : CrewRequest)
    (st : State) (crew : Crew) (out : string) (w' : World) :
  getenv_truthy environ "OPENAI_API_KEY" = true →
  validate_CrewRequest body = Some request →
  create_musical_theater_crew (production_name request) = Return crew →
  kickoff_async crew (make_inputs request) (world st) = (Return out, w') →
  (loop_time (world st) ≤ loop_time w')%Z →
  ∃ response st' t0 t1,
    post_trigger_crew environ body st = (JSONResponse response, st') ∧
    result response = out ∧
    (0 ≤ execution_time response)%Z ∧
    execution_time response = (t1 - t0)%Z ∧
    new_events st st' = [
      LogInfo ("Received request for production: "
                 ++ production_name request);
      CreateCrew (production_name request);
      LoopTime t0;
      Kickoff crew (make_inputs request);
      LoopTime t1;
      LogCompleted (execution_time response)].
Proof.
  intros Hkey Hvalid Hbuild Hrun Hclock.
  unfold post_trigger_crew, post_trigger_crew_with.
  rewrite verify_api_keys_present, Hvalid by done.
  rewrite (trigger_crew_with_engine_returns _ _ _ crew out w') by done.
  eexists _, _, (loop_time (world st)), (loop_time w').
  split; [reflexivity|]. split; [reflexivity|]. simpl.
  split; [lia|]. split; [reflexivity|].
  by erewrite new_events_app by reflexivity.
Qed.

(** C9: when the additional context of a request has the key
    ["production_name"], its value replaces the name of the request in the
    merged input mapping, and that mapping is what the engine is called
    with. *)
Theorem context_overrides_production_name
    (environ : gmap string string) (body : json) (request : CrewRequest)
    (st : State) (v : json) :
  getenv_truthy environ "OPENAI_API_KEY" = true →
  validate_CrewRequest body = Some request →
  additional_context request !! "production_name" = Some v →
  make_inputs request !! "production_name" = Some v ∧
  ∃ crew inputs,
    filter is_Kickoff (new_events st (post_trigger_crew environ body st).2)
      = [Kickoff crew inputs] ∧
    inputs !! "production_name" = Some v.
Proof.
  intros Hkey Hvalid Hctx.
  assert (Hin : make_inputs request !! "production_name" = Some v).
  { unfold make_inputs. apply lookup_union_Some_l. exact Hctx. }
  split; [exact Hin|].
  exists the_crew, (make_inputs request). split; [|exact Hin].
  unfold post_trigger_crew, post_trigger_crew_with.
  rewrite verify_api_keys_present, Hvalid by done.
  pose proof (create_musical_theater_crew_returns (production_name request))
    as Hbuild.
  destruct (kickoff_async the_crew (make_inputs request) (world st))
    as [[out|e] w'] eqn:Hrun.
  - rewrite (trigger_crew_with_engine_returns _ _ _ the_crew out w') by done.
    simpl. by erewrite new_events_app by reflexivity.
  - rewrite (trigger_crew_with_engine_raises _ _ _ the_crew e w') by done.
    simpl. by erewrite new_events_app by reflexivity.
Qed.

(** C5, as the code has it: a body validates exactly when it is an object
    whose [production_name] is a string, empty or not, and whose
    [additional_context] is absent (then taken as empty) or an object;
    the request carries that name and that context unchanged. *)
Theorem validate_CrewRequest_spec (body : json) (request : CrewRequest) :
  validate_CrewRequest body = Some request ↔
  ∃ members,
    body = JObject members ∧
    members !! "production_name" = Some (JString (production_name request)) ∧
    (members !! "additional_context" = None
       ∧ additional_context request = ∅
     ∨ members !! "additional_context"
       = Some (JObject (additional_context request))).
Proof.
  split.
  - destruct body as [| | | | |members]; simpl; try discriminate.
    destruct (members !! "production_name") as [[| | |name| |]|] eqn:Hname;
      try discriminate.
    destruct (members !! "additional_context") as [[| | | | |context]|]
      eqn:Hctx; try discriminate; intros [= <-]; exists members; simpl; eauto.
  - intros (members & -> & Hname & Hctx). simpl. rewrite Hname.
    destruct request as [name context]; simpl in *.
    destruct Hctx as [[-> ->] | ->]; reflexivity.
Qed.

End FacadeClaims.

(* ===================================================================== *)
(** ** The claims at concrete requests, on the stub engine                *)
(* ===================================================================== *)

Section Instances.

#[local] Existing Instance stub_engine.

Lemma missing_key_fails_before_roster_witness :
  (∅ : gmap string string) !! "OPENAI_API_KEY" = None ∧
  (post_trigger_crew ∅ test_show st0).1
    = ErrorResponse 500
        "Missing required environment variables: OPENAI_API_KEY".
Proof.
  assert (Hunset : (∅ : gmap string string) !! "OPENAI_API_KEY" = None)
    by reflexivity.
  split; [exact Hunset|].
  destruct (missing_key_fails_before_roster ∅ test_show st0 Hunset)
    as (st' & -> & _).
  reflexivity.
Defined.

Lemma empty_key_treated_as_absent_witness :
  ({["OPENAI_API_KEY" := ""]} : gmap string string) !! "OPENAI_API_KEY"
    = Some "" ∧
  post_trigger_crew {["OPENAI_API_KEY" := ""]} test_show st0
    = post_trigger_crew (delete "OPENAI_API_KEY" {["OPENAI_API_KEY" := ""]})
        test_show st0.
Proof.
  assert (Hempty : ({["OPENAI_API_KEY" := ""]} : gmap string string)
                     !! "OPENAI_API_KEY" = Some "")
    by (vm_compute; reflexivity).
  split; [exact Hempty|].
  destruct (empty_key_treated_as_absent {["OPENAI_API_KEY" := ""]} st0 Hempty)
    as (_ & _ & _ & Hsame).
  exact (Hsame test_show).
Defined.

Lemma execution_error_surfaces_as_500_witness :
  let failing_builder : string → outcome exception Crew :=
    λ _, Raise (KeyError "goal") in
  let empty_builder : string → outcome exception Crew :=
    λ _, Return {| agents := []; tasks := []; crew_verbose := 2;
                   process := sequential;
                   callbacks := CrewAgentCallbacks_new |} in
  (post_trigger_crew_with failing_builder configured test_show st0).1
    = ErrorResponse 500 "An error occurred during CrewAI execution: 'goal'" ∧
  (post_trigger_crew_with empty_builder configured test_show st0).1
    = ErrorResponse 500 "An error occurred during CrewAI execution: no agents".
Proof.
  intros failing_builder empty_builder.
  pose (request := {| production_name := "Test Show";
                      additional_context := ∅ |}).
  assert (Hkey : getenv_truthy configured "OPENAI_API_KEY" = true)
    by (vm_compute; reflexivity).
  assert (Hvalid : validate_CrewRequest test_show = Some request)
    by (vm_compute; reflexivity).
  split.
  - destruct (execution_error_surfaces_as_500 failing_builder configured
                test_show request st0 (KeyError "goal") Hkey Hvalid)
      as (st' & -> & _).
    + left. reflexivity.
    + reflexivity.
  - destruct (execution_error_surfaces_as_500 empty_builder configured
                test_show request st0
                {| exc_type := "ValueError"; exc_str := "no agents" |}
                Hkey Hvalid)
      as (st' & -> & _).
    + right. eexists. split; reflexivity.
    + reflexivity.
Defined.

Lemma successful_run_response_witness :
  ∃ response,
    (post_trigger_crew configured test_show st0).1 = JSONResponse response ∧
    result response = "OK" ∧
    (0 ≤ execution_time response)%Z.
Proof.
  pose (request := {| production_name := "Test Show";
                      additional_context := ∅ |}).
  assert (Hkey : getenv_truthy configured "OPENAI_API_KEY" = true)
    by (vm_compute; reflexivity).
  assert (Hvalid : validate_CrewRequest test_show = Some request)
    by (vm_compute; reflexivity).
  assert (Hbuild : create_musical_theater_crew (production_name request)
                   = Return the_crew)
    by (vm_compute; reflexivity).
  assert (Hrun : kickoff_async the_crew (make_inputs request) (world st0)
                 = (Return "OK", 5%Z))
    by (vm_compute; reflexivity).
  assert (Hclock : (loop_time (world st0) ≤ loop_time (5%Z : World))%Z)
    by (simpl; lia).
  destruct (successful_run_response configured test_show request st0
              the_crew "OK" 5%Z Hkey Hvalid Hbuild Hrun Hclock)
    as (response & st' & t0 & t1 & Hpost & Hresult & Hnonneg & _).
  exists response. rewrite Hpost. done.
Defined.

Lemma context_overrides_production_name_witness :
  ∃ crew inputs,
    filter is_Kickoff
      (new_events st0 (post_trigger_crew configured override_body st0).2)
      = [Kickoff crew inputs] ∧
    inputs !! "production_name" = Some (JString "Evita").
Proof.
  pose (request := {|
    production_name := "Cats";
    additional_context := {["production_name" := JString "Evita"]}
  |}).
  assert (Hkey : getenv_truthy configured "OPENAI_API_KEY" = true)
    by (vm_compute; reflexivity).
  assert (Hvalid : validate_CrewRequest override_body = Some request)
    by (vm_compute; reflexivity).
  assert (Hctx : additional_context request !! "production_name"
                 = Some (JString "Evita"))
    by (vm_compute; reflexivity).
  exact (proj2 (context_overrides_production_name configured override_body
                  request st0 (JString "Evita") Hkey Hvalid Hctx)).
Defined.

(** C5, as stated, fails: a request whose [production_name] is the empty
    string validates, the crew is built and run, and the answer is a 200
    with the engine's output. *)
Lemma empty_production_name_accepted :
  validate_CrewRequest empty_name_body
    = Some {| production_name := ""; additional_context := ∅ |} ∧
  (post_trigger_crew configured empty_name_body st0).1
    = JSONResponse {| result := "OK"; execution_time := 5 |} ∧
  filter is_Kickoff (trace (post_trigger_crew configured empty_name_body st0).2)
    = [Kickoff the_crew {["production_name" := JString ""]}] ∧
  ¬ (∀ body request,
       validate_CrewRequest body = Some request →
       production_name request ≠ "").
Proof.
  assert (Hvalid : validate_CrewRequest empty_name_body
            = Some {| production_name := ""; additional_context := ∅ |})
    by (vm_compute; reflexivity).
  split; [exact Hvalid|].
  split; [vm_compute; reflexivity|].
  split; [vm_compute; reflexivity|].
  intros Hnonempty. exact (Hnonempty _ _ Hvalid eq_refl).
Qed.

(** The example of the specification: ["Test Show"] with the engine
    stubbed to return "OK". *)
Example test_show_response :
  (post_trigger_crew configured test_show st0).1
    = JSONResponse {| result := "OK"; execution_time := 5 |}.
Proof. vm_compute. reflexivity. Qed.

End Instances.

(* ===================================================================== *)
(** ** Further properties of the roster builder                           *)
(* ===================================================================== *)

Section RosterProperties.

Lemma elem_of_concat {A} (x : A) (ls : list (list A)) :
  x ∈ concat ls ↔ ∃ l, l ∈ ls ∧ x ∈ l.
Proof.
  induction ls as [|l ls IH]; simpl.
  - split; [by intros ?%elem_of_nil|]. by intros (l & ?%elem_of_nil & _).
  - rewrite elem_of_app, IH. split.
    + intros [Hx | (l' & Hl' & Hx)].
      * exists l. split; [left | done].
      * exists l'. split; [by right | done].
    + intros (l' & [->|Hl']%elem_of_cons & Hx); [by left|].
      right. by exists l'.
Qed.

Lemma length_concat_groups (m : MusicalTheaterCrew) (rs : list string) :
  length (concat (role_group m <$> rs))
  = sum_list ((λ r, length (templates_of m r)) <$> rs).
Proof.
  induction rs as [|r rs IH]; [done|].
  rewrite !fmap_cons, concat_cons, length_app, IH.
  unfold role_group at 1. rewrite length_fmap. reflexivity.
Qed.

Lemma filter_groups_empty (m : MusicalTheaterCrew) (r : string)
    (rs : list string) :
  templates_of m r = [] →
  filter (λ t, role (agent t) = r) (concat (role_group m <$> rs)) = [].
Proof.
  intros Hempty. induction rs as [|r' rs IH]; [done|].
  rewrite fmap_cons, concat_cons, filter_app, IH, app_nil_r.
  destruct (decide (r' = r)) as [->|Hne].
  - unfold role_group. by rewrite Hempty.
  - by apply filter_role_group_ne.
Qed.

(** X1: [create_agent_for_role] returns for every role string, it never
    raises the [KeyError] a subscript could give; the agent carries the
    role it was asked for, and when the role is a key of the descriptor
    table, the goal and the backstory are those of its entry. *)
Theorem create_agent_for_role_total (r : string) :
  ∃ a,
    create_agent_for_role r = Return a ∧
    role a = r ∧
    ∀ info, role_descriptions !! r = Some info →
      info !! "goal" = Some (goal a) ∧
      info !! "backstory" = Some (backstory a).
Proof.
  exists (descriptor r). split; [apply create_agent_for_role_returns|].
  split; [reflexivity|]. intros info Hinfo.
  destruct (role_info_complete r) as [[g Hg] [b Hb]].
  unfold descriptor; simpl. rewrite Hinfo in *. simpl in *.
  by rewrite Hg, Hb.
Qed.

(** X2: the three static tables agree: a string is one of the roles of
    the role list exactly when it is a key of the descriptor table, and
    exactly when it is a key of the template table.  So the builder never
    falls back to the generic descriptor or to an empty template list. *)
Theorem tables_cover_roles (r : string) :
  (r ∈ roles MusicalTheaterCrew_init ↔ is_Some (role_descriptions !! r)) ∧
  (r ∈ roles MusicalTheaterCrew_init
     ↔ is_Some (task_templates MusicalTheaterCrew_init !! r)).
Proof.
  split.
  - rewrite <- elem_of_dom. unfold role_descriptions.
    rewrite dom_list_to_map_L, elem_of_list_to_set. reflexivity.
  - rewrite <- elem_of_dom.
    unfold MusicalTheaterCrew_init; cbn [task_templates roles].
    rewrite dom_list_to_map_L, elem_of_list_to_set. reflexivity.
Qed.

(** X3: the loop of the builder returns for any role list and any
    template table, without raising: one agent per element of the role
    list, in order (repeated roles included), and as many tasks as the
    listed roles have templates; a role without an entry in the template
    table gets its agent and no task. *)
Theorem role_loop_total (m : MusicalTheaterCrew) (rs : list string) :
  ∃ ags tks,
    for_each (role_step m) rs ([], []) = Return (ags, tks) ∧
    role <$> ags = rs ∧
    length tks = sum_list ((λ r, length (templates_of m r)) <$> rs) ∧
    ∀ r, task_templates m !! r = None →
      filter (λ t, role (agent t) = r) tks = [].
Proof.
  eexists _, _. split; [apply for_each_role_step|]. simpl.
  split; [apply role_descriptors|].
  split; [apply length_concat_groups|].
  intros r Hnone. apply filter_groups_empty.
  unfold templates_of. by rewrite Hnone.
Qed.

(** X4: in the crew the builder returns, the tasks are exactly the
    declared templates of the crew's agents: a task belongs to the crew if
    and only if it was made by [create_task_for_role] from one of the
    crew's agents and one of the templates declared for that agent's
    role. *)
Theorem tasks_come_from_templates
    (production_name : string) (crew : Crew) (t : Task) :
  create_musical_theater_crew production_name = Return crew →
  (t ∈ tasks crew ↔
   ∃ a td,
     a ∈ agents crew ∧
     td ∈ templates_of MusicalTheaterCrew_init (role a) ∧
     t = create_task_for_role a td).
Proof.
  rewrite create_musical_theater_crew_returns. intros [= <-].
  rewrite the_crew_tasks, the_crew_agents, elem_of_concat. split.
  - intros (g & Hg & Ht).
    apply list_elem_of_fmap in Hg as (r & -> & Hr).
    apply list_elem_of_fmap in Ht as (td & -> & Htd).
    exists (descriptor r), td. split; [|done].
    by apply list_elem_of_fmap_2.
  - intros (a & td & Ha & Htd & ->).
    apply list_elem_of_fmap in Ha as (r & -> & Hr).
    exists (role_group MusicalTheaterCrew_init r). split.
    + by apply list_elem_of_fmap_2.
    + unfold role_group. by apply list_elem_of_fmap_2.
Qed.

Lemma tasks_come_from_templates_witness :
  {| description := "Draft storyline";
     expected_output := "Complete first draft of the book";
     agent := descriptor "Book" |} ∈ tasks the_crew.
Proof.
  apply (tasks_come_from_templates "Cats" the_crew);
    [vm_compute; reflexivity|].
  exists (descriptor "Book"),
    ("Draft storyline", "Complete first draft of the book").
  split; [|split; [|reflexivity]].
  - rewrite the_crew_agents. apply list_elem_of_fmap_2.
    apply (bool_decide_unpack _). vm_compute. exact I.
  - apply (bool_decide_unpack _). vm_compute. exact I.
Defined.

End RosterProperties.

(* ===================================================================== *)
(** ** Further properties of the HTTP facade                              *)
(* ===================================================================== *)

Section FacadeProperties.
Context `{Engine}.

(** The four ways a request can go, with the response and the state each
    leaves. *)
Lemma post_trigger_crew_missing_key
    (environ : gmap string string) (body : json) (st : State) :
  getenv_truthy environ "OPENAI_API_KEY" = false →
  post_trigger_crew environ body st
  = (ErrorResponse 500 missing_key_detail,
     {| world := world st;
        trace := trace st ++ [LogError missing_key_detail] |}).
Proof.
  intros Hkey. unfold post_trigger_crew, post_trigger_crew_with.
  by rewrite verify_api_keys_missing.
Qed.

Lemma post_trigger_crew_invalid
    (environ : gmap string string) (body : json) (st : State) :
  getenv_truthy environ "OPENAI_API_KEY" = true →
  validate_CrewRequest body = None →
  post_trigger_crew environ body st = (UnprocessableEntity, st).
Proof.
  intros Hkey Hbody. unfold post_trigger_crew, post_trigger_crew_with.
  by rewrite verify_api_keys_present, Hbody.
Qed.

Lemma post_trigger_crew_returns
    (environ : gmap string string) (body : json) (request : CrewRequest)
    (st : State) (out : string) (w' : World) :
  getenv_truthy environ "OPENAI_API_KEY" = true →
  validate_CrewRequest body = Some request →
  kickoff_async the_crew (make_inputs request) (world st) = (Return out, w') →
  post_trigger_crew environ body st
  = (JSONResponse {| result := out;
                     execution_time := loop_time w' - loop_time (world st) |},
     {| world := w';
        trace := trace st ++ [
          LogInfo ("Received request for production: "
                     ++ production_name request);
          CreateCrew (production_name request);
          LoopTime (loop_time (world st));
          Kickoff the_crew (make_inputs request);
          LoopTime (loop_time w');
          LogCompleted (loop_time w' - loop_time (world st))] |}).
Proof.
  intros Hkey Hbody Hrun. unfold post_trigger_crew, post_trigger_crew_with.
  rewrite verify_api_keys_present, Hbody by done.
  rewrite (trigger_crew_with_engine_returns _ _ _ the_crew out w');
    [done | apply create_musical_theater_crew_returns | done].
Qed.

Lemma post_trigger_crew_raises
    (environ : gmap string string) (body : json) (request : CrewRequest)
    (st : State) (e : exception) (w' : World) :
  getenv_truthy environ "OPENAI_API_KEY" = true →
  validate_CrewRequest body = Some request →
  kickoff_async the_crew (make_inputs request) (world st) = (Raise e, w') →
  post_trigger_crew environ body st
  = (ErrorResponse 500 (execution_error_detail e),
     {| world := w';
        trace := trace st ++ [
          LogInfo ("Received request for production: "
                     ++ production_name request);
          CreateCrew (production_name request);
          LoopTime (loop_time (world st));
          Kickoff the_crew (make_inputs request);
          LogError ("Error during CrewAI execution: " ++ exc_str e)] |}).
Proof.
  intros Hkey Hbody Hrun. unfold post_trigger_crew, post_trigger_crew_with.
  rewrite verify_api_keys_present, Hbody by done.
  rewrite (trigger_crew_with_engine_raises _ _ _ the_crew e w');
    [done | apply create_musical_theater_crew_returns | done].
Qed.

(** Split a goal about [post_trigger_crew environ body st] along these
    four ways and rewrite the call in each. *)
Ltac post_cases environ body st :=
  let Hkey := fresh "Hkey" in
  let Hbody := fresh "Hbody" in
  let Hrun := fresh "Hrun" in
  let request := fresh "request" in
  let out := fresh "out" in
  let e := fresh "e" in
  let w' := fresh "w'" in
  destruct (getenv_truthy environ "OPENAI_API_KEY") eqn:Hkey;
  [ destruct (validate_CrewRequest body) as [request|] eqn:Hbody;
    [ destruct (kickoff_async the_crew (make_inputs request) (world st))
        as [[out|e] w'] eqn:Hrun;
      [ rewrite (post_trigger_crew_returns environ body request st out w')
          in * by done
      | rewrite (post_trigger_crew_raises environ body request st e w')
          in * by done ]
    | rewrite (post_trigger_crew_invalid environ body st) in * by done ]
  | rewrite (post_trigger_crew_missing_key environ body st) in * by done ].

(** Membership in an explicit list of events: proving it, and taking a
    hypothesis of it apart. *)
Ltac event_in_list :=
  repeat first [apply list_elem_of_here | apply list_elem_of_further].

Ltac event_cases Hin :=
  repeat (apply elem_of_cons in Hin as [Hin|Hin];
          [try discriminate Hin|]);
  try (by apply elem_of_nil in Hin).

(** X5: [verify_api_keys] returns [True], and leaves no record in the
    log, exactly when [OPENAI_API_KEY] is set to a non-empty value; in
    every other environment it raises.  No other variable of the
    environment is looked at. *)
Theorem verify_api_keys_succeeds_iff
    (environ : gmap string string) (st : State) :
  (verify_api_keys environ st = (Return true, st)
     ↔ ∃ value, environ !! "OPENAI_API_KEY" = Some value ∧ value ≠ "") ∧
  ((∃ e, (verify_api_keys environ st).1 = Raise e)
     ↔ environ !! "OPENAI_API_KEY" = None
       ∨ environ !! "OPENAI_API_KEY" = Some "") ∧
  ∀ environ' : gmap string string,
    environ' !! "OPENAI_API_KEY" = environ !! "OPENAI_API_KEY" →
    verify_api_keys environ' st = verify_api_keys environ st.
Proof.
  assert (Htruthy : ∀ env : gmap string string,
            getenv_truthy env "OPENAI_API_KEY" = true
            ↔ ∃ value, env !! "OPENAI_API_KEY" = Some value ∧ value ≠ "").
  { intros env. unfold getenv_truthy.
    destruct (env !! "OPENAI_API_KEY") as [value|].
    - rewrite bool_decide_eq_true. split.
      + intros Hne. by exists value.
      + by intros (v & [= <-] & Hne).
    - split; [discriminate | by intros (v & [=] & _)]. }
  split; [|split].
  - rewrite <- Htruthy.
    destruct (getenv_truthy environ "OPENAI_API_KEY") eqn:Hkey.
    + by rewrite verify_api_keys_present.
    + rewrite verify_api_keys_missing by done. split; discriminate.
  - destruct (getenv_truthy environ "OPENAI_API_KEY") eqn:Hkey.
    + rewrite verify_api_keys_present by done.
      apply Htruthy in Hkey as (value & Hvalue & Hne). rewrite Hvalue.
      split; [by intros [e ?] | intros [?|[= ?]]; done].
    + rewrite verify_api_keys_missing by done. split; [|by eexists].
      intros _. unfold getenv_truthy in Hkey.
      destruct (environ !! "OPENAI_API_KEY") as [value|]; [|by left].
      right. apply bool_decide_eq_false in Hkey.
      f_equal. by destruct (decide (value = "")).
  - intros environ' Hsame.
    assert (Hk : getenv_truthy environ' "OPENAI_API_KEY"
                 = getenv_truthy environ "OPENAI_API_KEY")
      by (unfold getenv_truthy; by rewrite Hsame).
    destruct (getenv_truthy environ "OPENAI_API_KEY") eqn:Hkey.
    + by rewrite !verify_api_keys_present.
    + by rewrite !verify_api_keys_missing.
Qed.

(** X6: the merged input mapping has the entries of the additional
    context, unchanged, and the production name of the request under
    ["production_name"] when the context has no entry of that key; it has
    no other key. *)
Theorem make_inputs_lookup (request : CrewRequest) (k : string) :
  make_inputs request !! k
  = match additional_context request !! k with
    | Some v => Some v
    | None =>
        if decide (k = "production_name")
        then Some (JString (production_name request))
        else None
    end.
Proof.
  unfold make_inputs. rewrite lookup_union.
  destruct (additional_context request !! k) as [v|] eqn:Hctx.
  - by destruct ({["production_name" := JString (production_name request)]}
                   !! k).
  - rewrite (left_id_L None _). case_decide as Hk.
    + subst k. apply lookup_singleton_eq.
    + by apply lookup_singleton_ne.
Qed.

Lemma new_events_refl (st : State) : new_events st st = [].
Proof. unfold new_events. apply drop_all. Qed.

Lemma built_crew (name : string) (crew : Crew) :
  create_musical_theater_crew name = Return crew → crew = the_crew.
Proof. rewrite create_musical_theater_crew_returns. by intros [= <-]. Qed.

(** X7: which answer a request gets.  It is a 422 exactly when the key is
    configured and the body does not validate; a 200 exactly when the key
    is configured, the body validates and the engine run on the built crew
    returns; an error response exactly when the key is not configured, or
    the body validates and the engine run raises. *)
Theorem endpoint_status_table
    (environ : gmap string string) (body : json) (st : State) :
  let response := (post_trigger_crew environ body st).1 in
  let key_set := getenv_truthy environ "OPENAI_API_KEY" in
  (response = UnprocessableEntity
     ↔ key_set = true ∧ validate_CrewRequest body = None) ∧
  ((∃ r, response = JSONResponse r)
     ↔ key_set = true ∧
       ∃ request crew out,
         validate_CrewRequest body = Some request ∧
         create_musical_theater_crew (production_name request) = Return crew ∧
         (kickoff_async crew (make_inputs request) (world st)).1
           = Return out) ∧
  ((∃ code d, response = ErrorResponse code d)
     ↔ key_set = false ∨
       ∃ request crew e,
         validate_CrewRequest body = Some request ∧
         create_musical_theater_crew (production_name request) = Return crew ∧
         (kickoff_async crew (make_inputs request) (world st)).1
           = Raise e).
Proof.
  intros response key_set. subst response key_set.
  post_cases environ body st; simpl.
  - (* the engine returned *)
    split; [split; [discriminate | by intros [_ [=]]]|].
    split.
    + split; [intros _ | by eexists].
      split; [done|]. exists request, the_crew, out.
      rewrite create_musical_theater_crew_returns, Hrun. done.
    + split; [by intros (? & ? & [=])|].
      intros [[=] | (request' & crew & e & [= <-] & Hcrew & Hraise)].
      apply built_crew in Hcrew as ->. rewrite Hrun in Hraise. discriminate.
  - (* the engine raised *)
    split; [split; [discriminate | by intros [_ [=]]]|].
    split.
    + split; [by intros (? & [=])|].
      intros (_ & request' & crew & out & [= <-] & Hcrew & Hret).
      apply built_crew in Hcrew as ->. rewrite Hrun in Hret. discriminate.
    + split; [intros _ | by eexists _, _].
      right. exists request, the_crew, e.
      rewrite create_musical_theater_crew_returns, Hrun. done.
  - (* the body does not validate *)
    split; [done|]. split.
    + split; [by intros (? & [=]) | by intros (_ & ? & ? & ? & [=] & _)].
    + split; [by intros (? & ? & [=])|].
      by intros [[=] | (? & ? & ? & [=] & _)].
  - (* the key is missing *)
    split; [split; [discriminate | by intros [[=] _]]|].
    split.
    + split; [by intros (? & [=]) | by intros ([=] & _)].
    + split; [by left | by eexists _, _].
Qed.

(** X8: an error is never silent and never has another status: the
    request leaves an error record in the log exactly when the answer is
    an error response, and then the status is 500 and the detail is either
    the missing-configuration text or the execution-error text of some
    exception. *)
Theorem errors_are_logged
    (environ : gmap string string) (body : json) (st : State) :
  let response := (post_trigger_crew environ body st).1 in
  let st' := (post_trigger_crew environ body st).2 in
  ((∃ msg, LogError msg ∈ new_events st st')
     ↔ ∃ code d, response = ErrorResponse code d) ∧
  ∀ code d, response = ErrorResponse code d →
    code = 500%Z ∧
    (d = missing_key_detail ∨ ∃ e, d = execution_error_detail e).
Proof.
  intros response st'. subst response st'.
  post_cases environ body st; simpl.
  - erewrite new_events_app by reflexivity. split; [|by intros ? ? [=]].
    split; [|by intros (? & ? & [=])].
    intros (msg & Hin). event_cases Hin.
  - erewrite new_events_app by reflexivity. split.
    + split; [by eexists _, _|]. intros _. eexists. event_in_list.
    + intros code d [= <- <-]. split; [done|]. right. by exists e.
  - rewrite new_events_refl. split; [|by intros ? ? [=]].
    split; [|by intros (? & ? & [=])].
    by intros (msg & ?%elem_of_nil).
  - erewrite new_events_app by reflexivity. split.
    + split; [by eexists _, _|]. intros _. eexists. event_in_list.
    + intros code d [= <- <-]. split; [done|]. by left.
Qed.

(** X9: a request calls the engine at most once, and calls it exactly as
    often as it calls the roster builder; a call of the engine only
    happens with the key configured and a body that validates, on the crew
    the builder returned and on the merged inputs of that request. *)
Theorem engine_called_at_most_once
    (environ : gmap string string) (body : json) (st : State) :
  let st' := (post_trigger_crew environ body st).2 in
  (length (filter is_Kickoff (new_events st st')) ≤ 1)%nat ∧
  length (filter is_CreateCrew (new_events st st'))
    = length (filter is_Kickoff (new_events st st')) ∧
  ∀ crew inputs, Kickoff crew inputs ∈ new_events st st' →
    getenv_truthy environ "OPENAI_API_KEY" = true ∧
    ∃ request,
      validate_CrewRequest body = Some request ∧
      create_musical_theater_crew (production_name request) = Return crew ∧
      inputs = make_inputs request.
Proof.
  intros st'. subst st'.
  post_cases environ body st; simpl.
  - erewrite new_events_app by reflexivity.
    split; [simpl; lia|]. split; [done|].
    intros crew inputs Hin. split; [done|]. exists request.
    rewrite create_musical_theater_crew_returns.
    event_cases Hin. by injection Hin as -> ->.
  - erewrite new_events_app by reflexivity.
    split; [simpl; lia|]. split; [done|].
    intros crew inputs Hin. split; [done|]. exists request.
    rewrite create_musical_theater_crew_returns.
    event_cases Hin. by injection Hin as -> ->.
  - rewrite new_events_refl.
    split; [simpl; lia|]. split; [done|]. by intros ? ? ?%elem_of_nil.
  - erewrite new_events_app by reflexivity.
    split; [simpl; lia|]. split; [done|].
    intros crew inputs Hin. event_cases Hin.
Qed.

(** X10: when the roster builder raises, the handler stops there: the
    clock is not read, the engine is not called and the world is left as
    it was; the request is logged as received, then as failed. *)
Theorem builder_failure_skips_engine
    (create_crew : string → outcome exception Crew) (request : CrewRequest)
    (st : State) (e : exception) :
  create_crew (production_name request) = Raise e →
  let st' := (trigger_crew_with create_crew request st).2 in
  world st' = world st ∧
  new_events st st' = [
    LogInfo ("Received request for production: " ++ production_name request);
    CreateCrew (production_name request);
    LogError ("Error during CrewAI execution: " ++ exc_str e)] ∧
  filter is_Kickoff (new_events st st') = [].
Proof.
  intros Hbuild st'. subst st'.
  rewrite (trigger_crew_with_builder_raises _ _ _ e) by done. simpl.
  erewrite new_events_app by reflexivity. done.
Qed.

End FacadeProperties.

Section PropertyInstances.

#[local] Existing Instance stub_engine.

Lemma builder_failure_skips_engine_witness :
  filter is_Kickoff
    (new_events st0
       (trigger_crew_with (λ _, Raise (KeyError "goal"))
          {| production_name := "Test Show"; additional_context := ∅ |}
          st0).2)
  = [].
Proof.
  apply (builder_failure_skips_engine (λ _, Raise (KeyError "goal"))
           {| production_name := "Test Show"; additional_context := ∅ |}
           st0 (KeyError "goal")).
  reflexivity.
Defined.

End PropertyInstances.
